(** * localaddr: the first non-loopback IPv4 address of an up interface

    A shallow embedding of [src/localaddr.go] (package [localaddr], one
    function, [Get]) together with the part of Go's standard packages [net]
    and [fmt] that [Get] calls, and the properties of [Get] that the
    specification states.

    Conventions of the embedding:
    - a Go byte is a [Byte.byte]; a byte slice is a [list byte];
    - [net.IP] is a byte slice that may be [nil]: [option (list byte)], with
      [None] for the nil slice (an empty, non-nil slice is [Some []]);
    - [net.Flags] is a [uint]: an [N]; only [&] is applied to it, so its
      width plays no part;
    - a Go result pair [(x, err)] is a Rocq pair whose second component is an
      [option error], [None] for the nil error;
    - the two calls into the operating system, [net.Interfaces()] and the
      method [Addrs()] of a [net.Interface], are answered by a [Host] and
      recorded in a trace of queries, so that which interfaces were asked
      is a theorem about [Get]. *)

From Stdlib Require Import PeanoNat NArith List Bool Lia.
From Stdlib.Strings Require Import String Ascii Byte.
Import ListNotations.

Local Open Scope string_scope.
Local Open Scope list_scope.
Local Open Scope N_scope.

(** ** Errors *)

(** A Go [error] value.  [OpError] stands for the [*net.OpError] values the
    [net] package hands out for a failed enumeration (their [Source] and
    [Addr] are nil, [Err] is given by its message), [errorString] for the
    values made by [errors.New] and by [fmt.Errorf] without [%w]. *)
Inductive error : Type :=
| OpError (Op Net Err : string)
| errorString (s : string).

(** The method [Error()]. *)
Definition Error (e : error) : string :=
  match e with
  | OpError op nt err =>
      let s := op in
      let s := if String.eqb nt "" then s else (s ++ " " ++ nt)%string in
      (s ++ ": " ++ err)%string
  | errorString s => s
  end.

Module fmt.

(** [fmt.Errorf(format)] with no operands, for a [format] without verbs
    (the only use in [localaddr.go]): the message is the format itself. *)
Definition Errorf (format : string) : error := errorString format.

End fmt.

(** ** The part of package [net] used by [Get] *)

Module net.

Local Open Scope string_scope.
Local Open Scope nat_scope.

Definition IPv4len : nat := 4.
Definition IPv6len : nat := 16.

(** [type IP []byte]; [None] is the nil slice. *)
Definition IP : Type := option (list byte).

Definition bytes (ip : IP) : list byte :=
  match ip with
  | Some p => p
  | None => nil
  end.

Definition len (ip : IP) : nat := List.length (bytes ip).

Definition isnil (ip : IP) : bool :=
  match ip with
  | Some _ => false
  | None => true
  end.

(** [p[i]] for an index known to be in range. *)
Definition at_ (p : list byte) (i : nat) : byte := nth i p x00.

(** [p[i:j]]. *)
Definition slice (p : list byte) (i j : nat) : list byte :=
  firstn (j - i) (skipn i p).

Fixpoint bytes_eqb (p q : list byte) : bool :=
  match p, q with
  | nil, nil => true
  | a :: p', b :: q' => Byte.eqb a b && bytes_eqb p' q'
  | _, _ => false
  end.

Definition isZeros (p : list byte) : bool :=
  forallb (fun b => Byte.eqb b x00) p.

Definition v4InV6Prefix : list byte :=
  [x00; x00; x00; x00; x00; x00; x00; x00; x00; x00; xff; xff].

Definition IPv6loopback : IP :=
  Some [x00; x00; x00; x00; x00; x00; x00; x00;
        x00; x00; x00; x00; x00; x00; x00; x01].

(** [func (ip IP) To4() IP]: the 4-byte form of [ip], or nil. *)
Definition To4 (ip : IP) : IP :=
  if Nat.eqb (len ip) IPv4len then ip
  else if Nat.eqb (len ip) IPv6len
          && isZeros (slice (bytes ip) 0 10)
          && Byte.eqb (at_ (bytes ip) 10) xff
          && Byte.eqb (at_ (bytes ip) 11) xff
       then Some (slice (bytes ip) 12 16)
       else None.

(** [func (ip IP) Equal(x IP) bool]. *)
Definition Equal (ip x : IP) : bool :=
  if Nat.eqb (len ip) (len x) then bytes_eqb (bytes ip) (bytes x)
  else if Nat.eqb (len ip) IPv4len && Nat.eqb (len x) IPv6len
       then bytes_eqb (slice (bytes x) 0 12) v4InV6Prefix
            && bytes_eqb (bytes ip) (skipn 12 (bytes x))
  else if Nat.eqb (len ip) IPv6len && Nat.eqb (len x) IPv4len
       then bytes_eqb (slice (bytes ip) 0 12) v4InV6Prefix
            && bytes_eqb (skipn 12 (bytes ip)) (bytes x)
  else false.

(** [func (ip IP) IsLoopback() bool]. *)
Definition IsLoopback (ip : IP) : bool :=
  match To4 ip with
  | Some ip4 => Byte.eqb (at_ ip4 0) x7f
  | None => Equal ip IPv6loopback
  end.

(** *** Textual form *)

Definition digits : list ascii :=
  list_ascii_of_string "0123456789abcdef".

Definition digit (n : N) : string :=
  String (nth (N.to_nat n) digits "?"%char) EmptyString.

(** [appendDecimal(b, x)] for a [uint8]. *)
Definition appendDecimal (b : string) (x : byte) : string :=
  let n := Byte.to_N x in
  let b := if (100 <=? n)%N then b ++ digit (n / 100) else b in
  let b := if (10 <=? n)%N then b ++ digit ((n / 10) mod 10) else b in
  b ++ digit (n mod 10).

(** [appendHex(b, x)] for a [uint16]. *)
Definition appendHex (b : string) (x : N) : string :=
  let b := if (4096 <=? x)%N then b ++ digit (N.shiftr x 12) else b in
  let b := if (256 <=? x)%N
           then b ++ digit (N.land (N.shiftr x 8) 15) else b in
  let b := if (16 <=? x)%N
           then b ++ digit (N.land (N.shiftr x 4) 15) else b in
  b ++ digit (N.land x 15).

(** [hexString(b)]: two lower-case hexadecimal digits per byte. *)
Fixpoint hexString (b : list byte) : string :=
  match b with
  | nil => ""
  | tn :: b' =>
      digit (N.shiftr (Byte.to_N tn) 4) ++ digit (N.land (Byte.to_N tn) 15)
      ++ hexString b'
  end.

(** The dotted form of a 4-byte address. *)
Definition string4 (p4 : list byte) : string :=
  let ret := appendDecimal "" (at_ p4 0) in
  let ret := ret ++ "." in
  let ret := appendDecimal ret (at_ p4 1) in
  let ret := ret ++ "." in
  let ret := appendDecimal ret (at_ p4 2) in
  let ret := ret ++ "." in
  appendDecimal ret (at_ p4 3).

(** The eight 16-bit groups of a 16-byte address. *)
Definition v6u16 (p : list byte) (i : nat) : N :=
  (Byte.to_N (at_ p (2 * i)) * 256 + Byte.to_N (at_ p (2 * i + 1)))%N.

(** Length of the run of zero groups that starts at group [i]: the inner
    loop [for j < 8 && ip.v6u16(j) == 0 { j++ }], by the number [k = 8 - i]
    of groups left. *)
Fixpoint zeroRun (p : list byte) (i k : nat) : nat :=
  match k with
  | O => O
  | S k' => if (v6u16 p i =? 0)%N then S (zeroRun p (S i) k') else O
  end.

(** The outer loop of the zero-run search: [(zeroStart, zeroEnd)] after
    the groups from [i] on have been tried as starting points; [k = 8 - i].
    [(255, 255)] is the initial value. *)
Fixpoint longestZeros (p : list byte) (i k : nat) (z : nat * nat)
  : nat * nat :=
  match k with
  | O => z
  | S k' =>
      let l := zeroRun p i k in
      let z := if Nat.leb 2 l && Nat.ltb (snd z - fst z) l
               then (i, i + l) else z in
      longestZeros p (S i) k' z
  end.

(** The printing loop of [string6], [for i := uint8(0); i < 8; i++]: every
    pass advances [i], so eight passes ([fuel]) complete it. *)
Fixpoint appendGroups (fuel : nat) (p : list byte) (z : nat * nat)
         (ret : string) (i : nat) : string :=
  match fuel with
  | O => ret
  | S fuel' =>
      if Nat.leb 8 i then ret
      else if Nat.eqb i (fst z) then
        let ret := ret ++ "::" in
        let i := snd z in
        if Nat.leb 8 i then ret
        else appendGroups fuel' p z (appendHex ret (v6u16 p i)) (S i)
      else
        let ret := if Nat.ltb 0 i then ret ++ ":" else ret in
        appendGroups fuel' p z (appendHex ret (v6u16 p i)) (S i)
  end.

(** The text of a 16-byte address that has no 4-byte form. *)
Definition string6 (p : list byte) : string :=
  appendGroups 8 p (longestZeros p 0 8 (255, 255)) "" 0.

(** [func (ip IP) String() string]. *)
Definition String (ip : IP) : string :=
  if Nat.eqb (len ip) 0 then "<nil>"
  else if negb (Nat.eqb (len ip) IPv4len) && negb (Nat.eqb (len ip) IPv6len)
       then "?" ++ hexString (bytes ip)
  else if Nat.eqb (len (To4 ip)) IPv4len then string4 (bytes (To4 ip))
  else string6 (bytes ip).

(** *** Interfaces and addresses *)

(** [type Flags uint], and its bits, [1 << iota]. *)
Definition uint : Type := N.
Definition FlagUp : uint := 1%N.
Definition FlagBroadcast : uint := 2%N.
Definition FlagLoopback : uint := 4%N.
Definition FlagPointToPoint : uint := 8%N.
Definition FlagMulticast : uint := 16%N.
Definition FlagRunning : uint := 32%N.

(** [type Interface struct]; [Index] is positive and [MTU] is not
    negative. *)
Record Interface : Type := mkInterface {
  Index : N;
  MTU : N;
  Name : string;
  HardwareAddr : list byte;
  Flags : uint
}.

(** A value of interface type [net.Addr], by its dynamic type.  The
    pointers the package returns are never nil, so [IPNet] and [IPAddr]
    carry the fields of the struct pointed to; every other implementation
    of [Addr] is an [OtherAddr] with its [Network()] and [String()]. *)
Inductive Addr : Type :=
| IPNet (ip : IP) (Mask : list byte)
| IPAddr (ip : IP) (Zone : string)
| OtherAddr (network text : string).

End net.

(** ** The host and the queries made to it *)

(** What the operating system answers: the outcome of [net.Interfaces()]
    and, for each interface, the outcome of its [Addrs()]. *)
Record Host : Type := mkHost {
  interfaceTable : list net.Interface * option error;
  interfaceAddrTable : net.Interface -> list net.Addr * option error
}.

Inductive Query : Type :=
| QInterfaces
| QAddrs (ifi : net.Interface).

(** A computation that reads the host and records its queries, in order. *)
Definition OS (A : Type) : Type := Host -> A * list Query.

Definition ret {A} (a : A) : OS A := fun _ => (a, []).

Definition bind {A B} (m : OS A) (f : A -> OS B) : OS B :=
  fun h =>
    let '(a, q1) := m h in
    let '(b, q2) := f a h in
    (b, q1 ++ q2).

Notation "x <- m ;; k" := (bind m (fun x => k))
  (at level 61, m at next level, right associativity).
Notation "' pat <- m ;; k" := (bind m (fun x => match x with pat => k end))
  (at level 61, pat pattern, m at next level, right associativity).

Module netOS.

(** [net.Interfaces()]. *)
Definition Interfaces : OS (list net.Interface * option error) :=
  fun h => (interfaceTable h, [QInterfaces]).

(** [ifi.Addrs()]. *)
Definition Addrs (ifi : net.Interface)
  : OS (list net.Addr * option error) :=
  fun h => (interfaceAddrTable h ifi, [QAddrs ifi]).

End netOS.

(** ** [localaddr.Get] *)

(** The type switch of lines 37-43: [ip] stays nil for any other dynamic
    type. *)
Definition addrIP (addr : net.Addr) : net.IP :=
  match addr with
  | net.IPNet ip _ => ip
  | net.IPAddr ip _ => ip
  | net.OtherAddr _ _ => None
  end.

(** The inner loop, lines 36-52.  [Some r]: the function returns [r];
    [None]: the loop ends without returning. *)
Fixpoint rangeAddrs (addrs : list net.Addr) : option (string * option error) :=
  match addrs with
  | [] => None
  | addr :: addrs' =>
      let ip := addrIP addr in
      if net.isnil ip || net.IsLoopback ip then rangeAddrs addrs'
      else
        let ip := net.To4 ip in
        if net.isnil ip then rangeAddrs addrs' (* not an ipv4 address *)
        else Some (net.String ip, None)
  end.

(** The outer loop, lines 25-53, with the same reading of the result. *)
Fixpoint rangeInterfaces (interfaces : list net.Interface)
  : OS (option (string * option error)) :=
  match interfaces with
  | [] => ret None
  | v :: interfaces' =>
      if N.land (net.Flags v) net.FlagUp =? 0
      then rangeInterfaces interfaces' (* interface down *)
      else if negb (N.land (net.Flags v) net.FlagLoopback =? 0)
      then rangeInterfaces interfaces' (* loopback interface *)
      else
        '(addrs, err) <- netOS.Addrs v ;;
        match err with
        | Some e => ret (Some ("", Some e))
        | None =>
            match rangeAddrs addrs with
            | Some r => ret (Some r)
            | None => rangeInterfaces interfaces'
            end
        end
  end.

(** [func Get() (string, error)]. *)
Definition Get : OS (string * option error) :=
  '(interfaces, err) <- netOS.Interfaces ;;
  match err with
  | Some e => ret ("", Some e)
  | None =>
      r <- rangeInterfaces interfaces ;;
      match r with
      | Some r => ret r
      | None => ret ("", Some (fmt.Errorf "not connected to the network"))
      end
  end.

(** The result of a call and the queries it made. *)
Definition result (h : Host) : string * option error := fst (Get h).
Definition queries (h : Host) : list Query := snd (Get h).


(** ** Vocabulary of the specification *)

(** The "up" flag is bit 0 of the flags ([FlagUp = 1 << 0]) and the
    "loopback" flag is bit 2 ([FlagLoopback = 1 << 2]). *)
Definition up (v : net.Interface) : bool := N.testbit (net.Flags v) 0.
Definition loopback (v : net.Interface) : bool := N.testbit (net.Flags v) 2.

(** An interface whose addresses are asked for. *)
Definition eligible (v : net.Interface) : bool := up v && negb (loopback v).

(** An address is rejected when its IP value is loopback-classified or has
    no 4-byte form (a nil IP has none). *)
Definition rejected (a : net.Addr) : bool :=
  net.IsLoopback (addrIP a) || net.isnil (net.To4 (addrIP a)).

(** An address passes the filters when its IP value is not nil, is not
    loopback-classified and has a 4-byte form. *)
Definition usable (a : net.Addr) : bool :=
  negb (net.isnil (addrIP a))
  && negb (net.IsLoopback (addrIP a))
  && negb (net.isnil (net.To4 (addrIP a))).

(** The text returned for a usable address. *)
Definition text (a : net.Addr) : string := net.String (net.To4 (addrIP a)).

(** The decimal text of one byte. *)
Definition dec (x : byte) : string := net.appendDecimal "" x.

(** An interface the search passes by: it is down, or loopback, or its
    address list was obtained and holds no usable address. *)
Definition passedBy (h : Host) (v : net.Interface) : Prop :=
  up v = false \/ loopback v = true \/
  (snd (interfaceAddrTable h v) = None /\
   Forall (fun a => usable a = false) (fst (interfaceAddrTable h v))).

(** Two addresses that carry the same IP value, whichever of the two
    representations, [*net.IPNet] or [*net.IPAddr], each has. *)
Inductive sameIP : net.Addr -> net.Addr -> Prop :=
| sameIP_refl (a : net.Addr) : sameIP a a
| sameIP_net_net (ip : net.IP) (m m' : list byte) :
    sameIP (net.IPNet ip m) (net.IPNet ip m')
| sameIP_addr_addr (ip : net.IP) (z z' : string) :
    sameIP (net.IPAddr ip z) (net.IPAddr ip z')
| sameIP_net_addr (ip : net.IP) (m : list byte) (z : string) :
    sameIP (net.IPNet ip m) (net.IPAddr ip z)
| sameIP_addr_net (ip : net.IP) (z : string) (m : list byte) :
    sameIP (net.IPAddr ip z) (net.IPNet ip m).

(** The queries for the addresses of the eligible interfaces of a list. *)
Definition addrQueries (l : list net.Interface) : list Query :=
  map QAddrs (filter eligible l).

(** The host with every rejected address taken out of its address lists. *)
Definition withoutRejected (h : Host) : Host :=
  mkHost (interfaceTable h)
         (fun v => (filter (fun a => negb (rejected a))
                           (fst (interfaceAddrTable h v)),
                    snd (interfaceAddrTable h v))).

(** *** Dotted-decimal literals

    A reader of dotted-decimal text, written from the definition of the
    form (four decimal octets separated by periods) and independent of
    [net.String]: the fields between periods, each of one to three decimal
    digits, without a leading zero unless it is "0", and at most 255. *)

Fixpoint fields (s : string) : list string :=
  match s with
  | EmptyString => [EmptyString]
  | String c s' =>
      if Ascii.eqb c "."%char then EmptyString :: fields s'
      else match fields s' with
           | f :: fs => String c f :: fs
           | [] => [String c EmptyString]
           end
  end.

(** Whether a string holds a period. *)
Fixpoint hasDot (s : string) : bool :=
  match s with
  | EmptyString => false
  | String c s' => Ascii.eqb c "."%char || hasDot s'
  end.

Definition digitValue (c : ascii) : option N :=
  let n := N_of_ascii c in
  if (48 <=? n) && (n <=? 57) then Some (n - 48) else None.

Fixpoint decimalValue (s : string) (acc : N) : option N :=
  match s with
  | EmptyString => Some acc
  | String c s' =>
      match digitValue c with
      | Some d => decimalValue s' (10 * acc + d)
      | None => None
      end
  end.

Definition octet (f : string) : option byte :=
  match f with
  | EmptyString => None
  | String c f' =>
      if Ascii.eqb c "0"%char && negb (String.eqb f' EmptyString) then None
      else if Nat.ltb 3 (String.length f) then None
      else match decimalValue f 0 with
           | Some n => Byte.of_N n
           | None => None
           end
  end.

Definition dottedDecimal (s : string) : option (list byte) :=
  match fields s with
  | [f0; f1; f2; f3] =>
      match octet f0, octet f1, octet f2, octet f3 with
      | Some b0, Some b1, Some b2, Some b3 => Some [b0; b1; b2; b3]
      | _, _, _, _ => None
      end
  | _ => None
  end.

(** ** Sample hosts: the scenarios of the specification *)

Definition ifi (index : N) (name : string) (flags : net.uint)
  : net.Interface :=
  net.mkInterface index 1500 name [] flags.

Definition lo : net.Interface :=
  ifi 1 "lo" (N.lor net.FlagUp (N.lor net.FlagLoopback net.FlagRunning)).
Definition eth0 : net.Interface :=
  ifi 2 "eth0" (N.lor net.FlagUp (N.lor net.FlagBroadcast net.FlagRunning)).
Definition eth1 : net.Interface :=
  ifi 3 "eth1" (N.lor net.FlagUp (N.lor net.FlagBroadcast net.FlagMulticast)).
Definition wlan0 : net.Interface :=
  ifi 4 "wlan0" (N.lor net.FlagBroadcast net.FlagMulticast).

Definition mask24 : list byte := [xff; xff; xff; x00].
Definition a_127_0_0_1 : net.Addr := net.IPNet (Some [x7f; x00; x00; x01]) [xff; x00; x00; x00].
Definition a_192_168_1_2 : net.Addr := net.IPNet (Some [xc0; xa8; x01; x02]) mask24.
Definition a_10_0_0_5 : net.Addr := net.IPNet (Some [x0a; x00; x00; x05]) mask24.
Definition a_10_0_0_1 : net.Addr := net.IPNet (Some [x0a; x00; x00; x01]) mask24.
Definition a_10_0_0_2 : net.Addr := net.IPAddr (Some [x0a; x00; x00; x02]) "".
Definition a_fe80_1 : net.Addr :=
  net.IPNet (Some [xfe; x80; x00; x00; x00; x00; x00; x00;
                   x00; x00; x00; x00; x00; x00; x00; x01])
            [xff; xff; xff; xff; xff; xff; xff; xff;
             x00; x00; x00; x00; x00; x00; x00; x00].

(** A host from its interfaces and an association list of address-query
    outcomes by interface index; an interface without an entry has no
    address. *)
Fixpoint lookupAddrs (tbl : list (N * (list net.Addr * option error)))
         (v : net.Interface) : list net.Addr * option error :=
  match tbl with
  | [] => ([], None)
  | (i, r) :: tbl' => if net.Index v =? i then r else lookupAddrs tbl' v
  end.

Definition host (l : list net.Interface)
           (tbl : list (N * (list net.Addr * option error))) : Host :=
  mkHost (l, None) (lookupAddrs tbl).

Definition denied : error := OpError "route" "ip+net" "permission denied".

Definition scenario1 : Host := host [eth0] [(2, ([a_192_168_1_2], None))].
Definition scenario2 : Host :=
  host [lo; eth0] [(1, ([a_127_0_0_1], None)); (2, ([a_10_0_0_5], None))].
Definition scenario3 : Host := host [eth0] [(2, ([a_fe80_1], None))].
Definition scenario4 : Host := host [] [].
Definition scenario5 : Host := mkHost ([], Some denied) (lookupAddrs []).
Definition scenario6 : Host :=
  host [eth0] [(2, ([a_10_0_0_1; a_10_0_0_2], None))].

(** A host with more of everything: a loopback interface, a down one, and
    two eligible ones, the first of which lists an IPv6 address, a loopback
    address and an address of a foreign kind before its IPv4 addresses. *)
Definition eth2 : net.Interface :=
  ifi 5 "eth2" (N.lor net.FlagUp net.FlagRunning).
Definition a_loop_bare : net.Addr := net.IPAddr (Some [x7f; x00; x00; x02]) "".
Definition a_unix : net.Addr := net.OtherAddr "unix" "/run/sock".
Definition a_mapped_10_0_0_9 : net.Addr :=
  net.IPAddr (Some [x00; x00; x00; x00; x00; x00; x00; x00;
                    x00; x00; xff; xff; x0a; x00; x00; x09]) "".

Definition busy : Host :=
  host [lo; wlan0; eth0; eth1]
       [(1, ([a_127_0_0_1], None));
        (4, ([a_192_168_1_2], None));
        (2, ([a_fe80_1; a_loop_bare; a_unix; a_10_0_0_1; a_10_0_0_2], None));
        (3, ([a_10_0_0_5], None))].

(** [busy] with other answers for the interfaces that are down or
    loopback, and for an interface that is not listed. *)
Definition busy_elsewhere : Host :=
  host [lo; wlan0; eth0; eth1]
       [(1, ([a_10_0_0_5], None));
        (4, ([], Some denied));
        (2, ([a_fe80_1; a_loop_bare; a_unix; a_10_0_0_1; a_10_0_0_2], None));
        (3, ([a_10_0_0_5], None));
        (5, ([a_192_168_1_2], None))].

(** [busy] with the other representation of each IP-bearing address. *)
Definition busy_other_form : Host :=
  host [lo; wlan0; eth0; eth1]
       [(1, ([net.IPAddr (Some [x7f; x00; x00; x01]) ""], None));
        (4, ([a_192_168_1_2], None));
        (2, ([net.IPAddr (addrIP a_fe80_1) "eth0";
              net.IPNet (addrIP a_loop_bare) mask24;
              a_unix;
              net.IPAddr (addrIP a_10_0_0_1) "";
              net.IPNet (addrIP a_10_0_0_2) mask24], None));
        (3, ([a_10_0_0_5], None))].

(** A host on which the second address query fails. *)
Definition broken : Host :=
  host [lo; eth0; eth1; eth2]
       [(2, ([a_fe80_1], None));
        (3, ([], Some denied));
        (5, ([a_10_0_0_5], None))].

(** A host without a usable address. *)
Definition offline : Host :=
  host [lo; wlan0; eth0; eth1]
       [(1, ([a_127_0_0_1], None));
        (4, ([a_192_168_1_2], None));
        (2, ([a_fe80_1; a_loop_bare; a_unix], None))].

(** The interfaces of [busy] under other names and indexes and with other
    flags beside the up and loopback bits (the second eligible one is up
    but not running), each with the answer of its counterpart. *)
Definition lo0 : net.Interface :=
  ifi 11 "lo0" (N.lor net.FlagUp net.FlagLoopback).
Definition awdl0 : net.Interface := ifi 14 "awdl0" net.FlagMulticast.
Definition en0 : net.Interface :=
  ifi 12 "en0" (N.lor net.FlagUp net.FlagPointToPoint).
Definition en1 : net.Interface := ifi 13 "en1" net.FlagUp.

Definition busy_renamed : Host :=
  host [lo0; awdl0; en0; en1]
       [(11, ([a_127_0_0_1], None));
        (14, ([a_192_168_1_2], None));
        (12, ([a_fe80_1; a_loop_bare; a_unix; a_10_0_0_1; a_10_0_0_2], None));
        (13, ([a_10_0_0_5], None))].

(** [busy] with IPv4-mapped 16-byte forms in place of 4-byte ones, and a
    nil IP in place of the address of a foreign kind. *)
Definition mapped (p4 : list byte) : net.IP := Some (net.v4InV6Prefix ++ p4).

Definition busy_mapped : Host :=
  host [lo; wlan0; eth0; eth1]
       [(1, ([a_127_0_0_1], None));
        (4, ([a_192_168_1_2], None));
        (2, ([a_fe80_1;
              net.IPAddr (mapped [x7f; x00; x00; x02]) "";
              net.IPNet None [];
              net.IPNet (mapped [x0a; x00; x00; x01]) mask24;
              a_10_0_0_2], None));
        (3, ([net.IPAddr (mapped [x0a; x00; x00; x05]) ""], None))].

(** A host whose first eligible interface lists addresses of odd lengths
    before a usable one. *)
Definition odd_lengths : Host :=
  host [eth0]
       [(2, ([net.IPNet (Some []) [];
              net.IPAddr (Some [x0a; x00; x00]) "";
              net.IPNet (Some [x0a; x00; x00; x01; x02]) mask24;
              a_10_0_0_2], None))].

Example Get_scenario1 :
  Get scenario1 = ("192.168.1.2", None, [QInterfaces; QAddrs eth0]).
Proof. reflexivity. Qed.

Example Get_scenario2 :
  Get scenario2 = ("10.0.0.5", None, [QInterfaces; QAddrs eth0]).
Proof. reflexivity. Qed.

Example Get_scenario3 :
  Get scenario3
  = ("", Some (errorString "not connected to the network"),
     [QInterfaces; QAddrs eth0]).
Proof. reflexivity. Qed.

Example Get_scenario4 :
  Get scenario4
  = ("", Some (errorString "not connected to the network"), [QInterfaces]).
Proof. reflexivity. Qed.

Example Get_scenario5 : Get scenario5 = ("", Some denied, [QInterfaces]).
Proof. reflexivity. Qed.

Example Get_scenario6 :
  Get scenario6 = ("10.0.0.1", None, [QInterfaces; QAddrs eth0]).
Proof. reflexivity. Qed.

Example Get_busy :
  Get busy = ("10.0.0.1", None, [QInterfaces; QAddrs eth0]).
Proof. reflexivity. Qed.

Example Get_broken :
  Get broken = ("", Some denied, [QInterfaces; QAddrs eth0; QAddrs eth1]).
Proof. reflexivity. Qed.

Example Get_offline :
  Get offline
  = ("", Some (errorString "not connected to the network"),
     [QInterfaces; QAddrs eth0; QAddrs eth1]).
Proof. reflexivity. Qed.

Example Get_mapped :
  Get (host [eth0] [(2, ([a_mapped_10_0_0_9], None))])
  = ("10.0.0.9", None, [QInterfaces; QAddrs eth0]).
Proof. reflexivity. Qed.

Example Get_odd_lengths :
  Get odd_lengths = ("10.0.0.2", None, [QInterfaces; QAddrs eth0]).
Proof. reflexivity. Qed.

Example Get_busy_renamed :
  Get busy_renamed = ("10.0.0.1", None, [QInterfaces; QAddrs en0]).
Proof. reflexivity. Qed.

Example String_samples :
  net.String (addrIP a_fe80_1) = "fe80::1"
  /\ net.String (addrIP a_mapped_10_0_0_9) = "10.0.0.9"
  /\ net.String (Some [x0a; x00]) = "?0a00"
  /\ net.String None = "<nil>"
  /\ net.String (Some []) = "<nil>".
Proof. repeat split. Qed.

Example dottedDecimal_samples :
  dottedDecimal "192.168.1.2" = Some [xc0; xa8; x01; x02]
  /\ dottedDecimal "10.0.0.255" = Some [x0a; x00; x00; xff]
  /\ dottedDecimal "10.0.0.256" = None
  /\ dottedDecimal "10.0.0" = None
  /\ dottedDecimal "10.0.0.01" = None
  /\ dottedDecimal "10.0.0.1." = None
  /\ dottedDecimal "<nil>" = None
  /\ dottedDecimal "" = None
  /\ dottedDecimal "1.2.3.4.5" = None
  /\ dottedDecimal "fe80::1" = None.
Proof. repeat split. Qed.

(** ** Facts about the [net] model *)

Lemma FlagUp_testbit (f : net.uint) :
  (N.land f net.FlagUp =? 0) = negb (N.testbit f 0).
Proof.
  destruct f as [|[p|p|]]; reflexivity.
Qed.

Lemma FlagLoopback_testbit (f : net.uint) :
  negb (N.land f net.FlagLoopback =? 0) = N.testbit f 2.
Proof.
  destruct f as [|p]; [reflexivity|].
  destruct p as [[[q|q|]|[q|q|]|]|[[q|q|]|[q|q|]|]|]; reflexivity.
Qed.

Lemma eligible_flags (v : net.Interface) :
  eligible v = true <-> up v = true /\ loopback v = false.
Proof.
  unfold eligible. rewrite andb_true_iff, negb_true_iff. tauto.
Qed.

Lemma To4_length (ip : net.IP) (p : list byte) :
  net.To4 ip = Some p -> List.length p = 4%nat.
Proof.
  unfold net.To4.
  destruct (Nat.eqb (net.len ip) net.IPv4len) eqn:E4.
  - intros ->. apply Nat.eqb_eq in E4. exact E4.
  - destruct (_ && _) eqn:E16; [|discriminate].
    intros [= <-].
    repeat (apply andb_true_iff in E16; destruct E16 as [E16 _]).
    apply Nat.eqb_eq in E16. unfold net.len in E16.
    unfold net.slice. rewrite length_firstn, length_skipn, E16.
    reflexivity.
Qed.

Lemma To4_four (ip : net.IP) :
  net.isnil (net.To4 ip) = false ->
  exists b0 b1 b2 b3, net.To4 ip = Some [b0; b1; b2; b3].
Proof.
  destruct (net.To4 ip) as [p|] eqn:E; [intros _|discriminate].
  apply To4_length in E.
  destruct p as [|b0 [|b1 [|b2 [|b3 [|b4 p]]]]]; try discriminate.
  now exists b0, b1, b2, b3.
Qed.

Lemma String_four (b0 b1 b2 b3 : byte) :
  net.String (Some [b0; b1; b2; b3]) = net.string4 [b0; b1; b2; b3].
Proof. reflexivity. Qed.

(** The text of an IP value is the text of its 4-byte form, when it has
    one. *)
Lemma String_To4 (ip : net.IP) :
  net.isnil (net.To4 ip) = false -> net.String (net.To4 ip) = net.String ip.
Proof.
  intros H. destruct (To4_four ip H) as (b0 & b1 & b2 & b3 & E).
  rewrite E, String_four.
  unfold net.String. rewrite E.
  unfold net.To4 in E.
  destruct (Nat.eqb (net.len ip) net.IPv4len) eqn:E4.
  - subst ip. reflexivity.
  - destruct (_ && _) eqn:E16; [|discriminate].
    repeat (apply andb_true_iff in E16; destruct E16 as [E16 _]).
    apply Nat.eqb_eq in E16. rewrite E16. reflexivity.
Qed.

(** *** The dotted form read back *)

Lemma string_app_assoc (s t u : string) :
  ((s ++ t) ++ u)%string = (s ++ t ++ u)%string.
Proof.
  induction s as [|c s IH]; simpl; [reflexivity | now rewrite IH].
Qed.

Lemma appendDecimal_app (b : string) (x : byte) :
  net.appendDecimal b x = (b ++ dec x)%string.
Proof.
  unfold dec, net.appendDecimal.
  destruct (100 <=? Byte.to_N x), (10 <=? Byte.to_N x); simpl;
    now rewrite ?string_app_assoc.
Qed.

Lemma string4_dec (b0 b1 b2 b3 : byte) :
  net.string4 [b0; b1; b2; b3]
  = (dec b0 ++ "." ++ dec b1 ++ "." ++ dec b2 ++ "." ++ dec b3)%string.
Proof.
  unfold net.string4, net.at_; simpl nth.
  rewrite !appendDecimal_app, !string_app_assoc. reflexivity.
Qed.

Lemma fields_dec_dot (x : byte) (rest : string) :
  fields (dec x ++ "." ++ rest) = dec x :: fields rest.
Proof. destruct x; reflexivity. Qed.

Lemma fields_dec (x : byte) : fields (dec x) = [dec x].
Proof. destruct x; reflexivity. Qed.

Lemma octet_dec (x : byte) : octet (dec x) = Some x.
Proof. destruct x; reflexivity. Qed.

(** Reading the dotted form of four bytes gives the four bytes back. *)
Lemma dottedDecimal_string4 (b0 b1 b2 b3 : byte) :
  dottedDecimal (net.string4 [b0; b1; b2; b3]) = Some [b0; b1; b2; b3].
Proof.
  unfold dottedDecimal.
  rewrite string4_dec, !fields_dec_dot, fields_dec, !octet_dec.
  reflexivity.
Qed.

(** ** The two loops *)

(** One pass of the inner loop, by the vocabulary of the specification. *)
Lemma rangeAddrs_cons (a : net.Addr) (l : list net.Addr) :
  rangeAddrs (a :: l)
  = if usable a then Some (text a, None) else rangeAddrs l.
Proof.
  unfold usable, text; simpl.
  destruct (net.isnil (addrIP a)), (net.IsLoopback (addrIP a)),
    (net.isnil (net.To4 (addrIP a))); reflexivity.
Qed.

Lemma rejected_usable (a : net.Addr) : rejected a = negb (usable a).
Proof.
  unfold rejected, usable.
  destruct (addrIP a) as [p|]; [|reflexivity].
  simpl. now rewrite negb_andb, !negb_involutive.
Qed.

Lemma rangeAddrs_none (l : list net.Addr) :
  Forall (fun a => usable a = false) l -> rangeAddrs l = None.
Proof.
  induction 1 as [|a l Ha _ IH]; [reflexivity|].
  now rewrite rangeAddrs_cons, Ha.
Qed.

Lemma rangeAddrs_none_inv (l : list net.Addr) :
  rangeAddrs l = None -> Forall (fun a => usable a = false) l.
Proof.
  induction l as [|a l IH]; [constructor|].
  rewrite rangeAddrs_cons.
  destruct (usable a) eqn:Ha; [discriminate|].
  intros H. constructor; auto.
Qed.

Lemma rangeAddrs_first (apre apost : list net.Addr) (a : net.Addr) :
  Forall (fun x => usable x = false) apre ->
  usable a = true ->
  rangeAddrs (apre ++ a :: apost) = Some (text a, None).
Proof.
  intros Hpre Ha.
  induction Hpre as [|x apre Hx _ IH]; simpl app.
  - now rewrite rangeAddrs_cons, Ha.
  - now rewrite rangeAddrs_cons, Hx.
Qed.

Lemma rangeAddrs_some (l : list net.Addr) (r : string * option error) :
  rangeAddrs l = Some r ->
  exists a, In a l /\ usable a = true /\ r = (text a, None).
Proof.
  induction l as [|a l IH]; [discriminate|].
  rewrite rangeAddrs_cons.
  destruct (usable a) eqn:Ha.
  - intros [= <-]. exists a. simpl; auto.
  - intros H. destruct (IH H) as (x & Hin & Hx & ->).
    exists x. simpl; auto.
Qed.

Lemma rangeAddrs_filter (l : list net.Addr) :
  rangeAddrs (filter (fun a => negb (rejected a)) l) = rangeAddrs l.
Proof.
  induction l as [|a l IH]; [reflexivity|].
  simpl filter. rewrite rejected_usable, negb_involutive.
  destruct (usable a) eqn:Ha.
  - now rewrite !rangeAddrs_cons, Ha.
  - now rewrite rangeAddrs_cons, Ha.
Qed.

Lemma rangeAddrs_same_IP (l l' : list net.Addr) :
  Forall2 (fun a a' => addrIP a = addrIP a') l l' ->
  rangeAddrs l = rangeAddrs l'.
Proof.
  induction 1 as [|a a' l l' Ha _ IH]; [reflexivity|].
  rewrite !rangeAddrs_cons. unfold usable, text.
  now rewrite Ha, IH.
Qed.

(** One pass of the outer loop. *)
Lemma rangeInterfaces_cons (h : Host) (v : net.Interface)
      (l : list net.Interface) :
  rangeInterfaces (v :: l) h
  = if eligible v then
      match snd (interfaceAddrTable h v) with
      | Some e => (Some (EmptyString, Some e), [QAddrs v])
      | None =>
          match rangeAddrs (fst (interfaceAddrTable h v)) with
          | Some r => (Some r, [QAddrs v])
          | None => (fst (rangeInterfaces l h),
                     QAddrs v :: snd (rangeInterfaces l h))
          end
      end
    else rangeInterfaces l h.
Proof.
  unfold eligible, up, loopback. simpl.
  rewrite FlagUp_testbit, FlagLoopback_testbit.
  destruct (N.testbit (net.Flags v) 0); simpl; [|reflexivity].
  destruct (N.testbit (net.Flags v) 2); simpl; [reflexivity|].
  unfold bind, netOS.Addrs, ret.
  destruct (interfaceAddrTable h v) as [addrs [e|]]; simpl; [reflexivity|].
  destruct (rangeAddrs addrs); [reflexivity|].
  destruct (rangeInterfaces l h); reflexivity.
Qed.

(** [Get], by the outcome of the outer loop. *)
Lemma Get_unfold (h : Host) :
  Get h
  = match snd (interfaceTable h) with
    | Some e => (EmptyString, Some e, [QInterfaces])
    | None =>
        (match fst (rangeInterfaces (fst (interfaceTable h)) h) with
         | Some r => r
         | None => (EmptyString,
                    Some (fmt.Errorf "not connected to the network"))
         end,
         QInterfaces :: snd (rangeInterfaces (fst (interfaceTable h)) h))
    end.
Proof.
  unfold Get, bind, netOS.Interfaces, ret.
  destruct (interfaceTable h) as [l [e|]]; simpl; [reflexivity|].
  destruct (rangeInterfaces l h) as [[r|] q]; simpl;
    now rewrite app_nil_r.
Qed.

Section Search.

Variable h : Host.

Lemma passedBy_eligible (v : net.Interface) :
  passedBy h v -> eligible v = true ->
  snd (interfaceAddrTable h v) = None
  /\ rangeAddrs (fst (interfaceAddrTable h v)) = None.
Proof.
  intros [Hup | [Hlo | [Herr Hall]]] He; apply eligible_flags in He.
  - destruct He; congruence.
  - destruct He; congruence.
  - split; [exact Herr | now apply rangeAddrs_none].
Qed.

(** The search walks over the interfaces it passes by, asking each eligible
    one for its addresses, and goes on with the rest. *)
Lemma rangeInterfaces_passedBy (pre rest : list net.Interface) :
  Forall (passedBy h) pre ->
  rangeInterfaces (pre ++ rest) h
  = (fst (rangeInterfaces rest h),
     addrQueries pre ++ snd (rangeInterfaces rest h)).
Proof.
  unfold addrQueries.
  induction 1 as [|v pre Hv _ IH]; simpl app.
  - now destruct (rangeInterfaces rest h).
  - rewrite rangeInterfaces_cons. simpl filter.
    destruct (eligible v) eqn:He; [|exact IH].
    destruct (passedBy_eligible v Hv He) as [-> ->].
    rewrite IH. reflexivity.
Qed.

(** Only eligible interfaces of the list are asked for their addresses. *)
Lemma rangeInterfaces_queries (l : list net.Interface)
      (v : net.Interface) :
  In (QAddrs v) (snd (rangeInterfaces l h)) ->
  In v l /\ eligible v = true.
Proof.
  induction l as [|u l IH]; [intros []|].
  rewrite rangeInterfaces_cons.
  destruct (eligible u) eqn:He.
  - assert (Hu : In (QAddrs v) [QAddrs u] -> In v (u :: l) /\ eligible v = true).
    { intros [[= ->] | []]. split; [now left | exact He]. }
    destruct (snd (interfaceAddrTable h u)); [exact Hu|].
    destruct (rangeAddrs _); [exact Hu|].
    simpl. intros [[= ->] | Hin].
    + split; [now left | exact He].
    + destruct (IH Hin). split; [now right | assumption].
  - intros Hin. destruct (IH Hin). split; [now right | assumption].
Qed.

(** What the search found, when it returns a value without an error. *)
Lemma rangeInterfaces_found (l : list net.Interface) (s : string) :
  fst (rangeInterfaces l h) = Some (s, None) ->
  exists v a, In v l /\ eligible v = true
              /\ In a (fst (interfaceAddrTable h v))
              /\ usable a = true /\ s = text a.
Proof.
  induction l as [|u l IH]; [discriminate|].
  rewrite rangeInterfaces_cons.
  assert (Hl : fst (rangeInterfaces l h) = Some (s, None) ->
               exists v a, In v (u :: l) /\ eligible v = true
                           /\ In a (fst (interfaceAddrTable h v))
                           /\ usable a = true /\ s = text a).
  { intros H. destruct (IH H) as (v & a & Hv & Hrest).
    exists v, a. split; [now right | exact Hrest]. }
  destruct (eligible u) eqn:He; [|exact Hl].
  destruct (snd (interfaceAddrTable h u)); [discriminate|].
  destruct (rangeAddrs _) as [r|] eqn:Hr; [|exact Hl].
  simpl. intros [= ->].
  destruct (rangeAddrs_some _ _ Hr) as (a & Hin & Ha & [= ->]).
  exists u, a. split; [now left | auto].
Qed.

(** The string that comes with an error is empty. *)
Lemma rangeInterfaces_error (l : list net.Interface)
      (s : string) (e : error) :
  fst (rangeInterfaces l h) = Some (s, Some e) -> s = EmptyString.
Proof.
  induction l as [|u l IH]; [discriminate|].
  rewrite rangeInterfaces_cons.
  destruct (eligible u); [|exact IH].
  destruct (snd (interfaceAddrTable h u)); [now intros [= <- _]|].
  destruct (rangeAddrs _) as [r|] eqn:Hr; [|exact IH].
  simpl. intros [= ->].
  destruct (rangeAddrs_some _ _ Hr) as (a & _ & _ & [=]).
Qed.

(** A failed address query ends the search with its error. *)
Lemma rangeInterfaces_abort (l : list net.Interface)
      (v : net.Interface) (e : error) (q1 q2 : list Query) :
  snd (rangeInterfaces l h) = q1 ++ QAddrs v :: q2 ->
  snd (interfaceAddrTable h v) = Some e ->
  fst (rangeInterfaces l h) = Some (EmptyString, Some e) /\ q2 = [].
Proof.
  intros Hq He. revert q1 Hq.
  induction l as [|u l IH]; intros q1.
  - destruct q1; discriminate.
  - rewrite rangeInterfaces_cons.
    destruct (eligible u); [|apply IH].
    assert (Hone : [QAddrs u] = q1 ++ QAddrs v :: q2 -> u = v /\ q2 = []).
    { intros H. destruct q1 as [|x [|y q1]]; try discriminate.
      now injection H as -> <-. }
    destruct (snd (interfaceAddrTable h u)) as [eu|] eqn:Heu.
    + simpl. intros H. destruct (Hone H) as [-> ->].
      split; [congruence | reflexivity].
    + destruct (rangeAddrs _).
      * simpl. intros H. destruct (Hone H) as [-> _]. congruence.
      * simpl. destruct q1 as [|x q1]; simpl.
        -- intros [= -> _]. congruence.
        -- intros [= _ H]. now apply IH in H.
Qed.

End Search.

(** Two hosts that give the eligible interfaces of a list the same error
    and address lists with the same outcome of the inner loop are searched
    alike. *)
Lemma rangeInterfaces_ext (h h' : Host) (l : list net.Interface) :
  (forall v, In v l -> eligible v = true ->
             snd (interfaceAddrTable h v) = snd (interfaceAddrTable h' v)
             /\ rangeAddrs (fst (interfaceAddrTable h v))
                = rangeAddrs (fst (interfaceAddrTable h' v))) ->
  rangeInterfaces l h = rangeInterfaces l h'.
Proof.
  induction l as [|v l IH]; intros H; [reflexivity|].
  rewrite !rangeInterfaces_cons.
  destruct (eligible v) eqn:He.
  - destruct (H v (or_introl eq_refl) He) as [<- <-].
    rewrite IH; [reflexivity|].
    intros u Hu. apply H. now right.
  - apply IH. intros u Hu. apply H. now right.
Qed.

Lemma Get_ext (h h' : Host) :
  interfaceTable h = interfaceTable h' ->
  (forall v, In v (fst (interfaceTable h)) -> eligible v = true ->
             snd (interfaceAddrTable h v) = snd (interfaceAddrTable h' v)
             /\ rangeAddrs (fst (interfaceAddrTable h v))
                = rangeAddrs (fst (interfaceAddrTable h' v))) ->
  Get h = Get h'.
Proof.
  intros Ht H. rewrite !Get_unfold, <- Ht.
  now rewrite (rangeInterfaces_ext h h' _ H).
Qed.

Lemma sameIP_addrIP (a a' : net.Addr) : sameIP a a' -> addrIP a = addrIP a'.
Proof. now destruct 1. Qed.

(** A usable address has a 4-byte form that does not start with 127, and
    its text is the dotted form of these four bytes. *)
Lemma usable_text (a : net.Addr) :
  usable a = true ->
  exists b0 b1 b2 b3,
    net.To4 (addrIP a) = Some [b0; b1; b2; b3]
    /\ b0 <> x7f
    /\ text a = net.string4 [b0; b1; b2; b3].
Proof.
  unfold usable, text. rewrite !andb_true_iff, !negb_true_iff.
  intros [[_ Hloop] H4].
  destruct (To4_four _ H4) as (b0 & b1 & b2 & b3 & E).
  exists b0, b1, b2, b3. split; [exact E|]. split.
  - unfold net.IsLoopback in Hloop. rewrite E in Hloop.
    apply Byte.eqb_false in Hloop. exact Hloop.
  - now rewrite E, String_four.
Qed.

(** The text of a rejected address is either not dotted-decimal at all or
    the dotted form of four bytes that start with 127. *)
Lemma rejected_text (a : net.Addr) :
  rejected a = true ->
  dottedDecimal (text a) = None
  \/ exists b1 b2 b3, dottedDecimal (text a) = Some [x7f; b1; b2; b3].
Proof.
  unfold rejected, text. intros H.
  destruct (net.isnil (net.To4 (addrIP a))) eqn:H4.
  - left. destruct (net.To4 (addrIP a)); [discriminate | reflexivity].
  - right. rewrite orb_false_r in H.
    destruct (To4_four _ H4) as (b0 & b1 & b2 & b3 & E).
    unfold net.IsLoopback in H. rewrite E in H.
    apply Byte.byte_dec_bl in H. unfold net.at_ in H. simpl in H. subst b0.
    exists b1, b2, b3.
    now rewrite E, String_four, dottedDecimal_string4.
Qed.

(** ** The properties of [Get] *)

(** C1.  When the interface list is [pre ++ v :: post], every interface of
    [pre] is passed by (down, loopback, or listing no usable address), [v]
    is up and not loopback, its address list is [apre ++ a :: apost] with no
    usable address in [apre] and [a] usable, then [Get] returns the text of
    [a] with a nil error, and this text reads back as the 4-byte form of
    [a].  Nothing of [post] and [apost] takes part: the queries made are
    the interface list, the addresses of the eligible interfaces of [pre]
    and the addresses of [v], so the return ends both loops. *)
Theorem Get_first_match (h : Host) (pre post : list net.Interface)
        (v : net.Interface) (apre apost : list net.Addr) (a : net.Addr) :
  interfaceTable h = (pre ++ v :: post, None) ->
  Forall (passedBy h) pre ->
  up v = true -> loopback v = false ->
  interfaceAddrTable h v = (apre ++ a :: apost, None) ->
  Forall (fun x => usable x = false) apre ->
  usable a = true ->
  Get h = (text a, None, QInterfaces :: addrQueries pre ++ [QAddrs v])
  /\ dottedDecimal (text a) = net.To4 (addrIP a).
Proof.
  intros Ht Hpre Hup Hlo Hv Hapre Ha. split.
  - rewrite Get_unfold, Ht. simpl snd. simpl fst.
    rewrite (rangeInterfaces_passedBy h pre (v :: post) Hpre).
    rewrite rangeInterfaces_cons.
    assert (He : eligible v = true) by now apply eligible_flags.
    rewrite He, Hv. simpl snd. simpl fst.
    now rewrite (rangeAddrs_first apre apost a Hapre Ha).
  - destruct (usable_text a Ha) as (b0 & b1 & b2 & b3 & E & _ & ->).
    now rewrite E, dottedDecimal_string4.
Qed.

Lemma Get_first_match_witness :
  Get busy = ("10.0.0.1"%string, None, [QInterfaces; QAddrs eth0])
  /\ dottedDecimal "10.0.0.1" = Some [x0a; x00; x00; x01].
Proof.
  apply (Get_first_match busy [lo; wlan0] [eth1] eth0
           [a_fe80_1; a_loop_bare; a_unix] [a_10_0_0_2] a_10_0_0_1).
  - reflexivity.
  - apply Forall_cons; [right; left; reflexivity|].
    apply Forall_cons; [left; reflexivity|].
    apply Forall_nil.
  - reflexivity.
  - reflexivity.
  - reflexivity.
  - repeat (apply Forall_cons; [reflexivity|]). apply Forall_nil.
  - reflexivity.
Defined.

(** C5.  When the interface list is obtained and every interface of it is
    passed by (down, loopback, or with an address list, obtained without
    error, that holds only nil, loopback or non-IPv4 addresses), the empty
    list included, [Get] fails with the error made by [fmt.Errorf] whose
    message is "not connected to the network". *)
Theorem Get_not_connected (h : Host) (l : list net.Interface) :
  interfaceTable h = (l, None) ->
  Forall (passedBy h) l ->
  Get h = (EmptyString, Some (errorString "not connected to the network"),
           QInterfaces :: addrQueries l)
  /\ Error (errorString "not connected to the network")
     = "not connected to the network"%string.
Proof.
  intros Ht Hl. split; [|reflexivity].
  pose proof (rangeInterfaces_passedBy h l [] Hl) as H.
  rewrite app_nil_r in H. simpl in H. rewrite app_nil_r in H.
  rewrite Get_unfold, Ht. simpl snd. simpl fst.
  now rewrite H.
Qed.

Lemma Get_not_connected_witness :
  Get offline
  = (EmptyString, Some (errorString "not connected to the network"),
     [QInterfaces; QAddrs eth0; QAddrs eth1])
  /\ Error (errorString "not connected to the network")
     = "not connected to the network"%string.
Proof.
  apply (Get_not_connected offline [lo; wlan0; eth0; eth1]).
  - reflexivity.
  - apply Forall_cons; [right; left; reflexivity|].
    apply Forall_cons; [left; reflexivity|].
    apply Forall_cons.
    { right; right. split; [reflexivity|].
      repeat (apply Forall_cons; [reflexivity|]). apply Forall_nil. }
    apply Forall_cons.
    { right; right. split; [reflexivity | apply Forall_nil]. }
    apply Forall_nil.
Defined.

(** C6.  When [net.Interfaces()] fails, [Get] returns the empty string
    and that very error, and has made no other query: no interface was
    asked for its addresses. *)
Theorem Get_interfaces_error (h : Host) (l : list net.Interface) (e : error) :
  interfaceTable h = (l, Some e) ->
  Get h = (EmptyString, Some e, [QInterfaces]).
Proof.
  intros Ht. now rewrite Get_unfold, Ht.
Qed.

Lemma Get_interfaces_error_witness :
  Get (mkHost ([eth0], Some denied) (interfaceAddrTable busy))
  = (EmptyString, Some denied, [QInterfaces]).
Proof.
  apply (Get_interfaces_error _ [eth0] denied). reflexivity.
Defined.

(** C10.  Whenever [Get] returns an error, the string it returns with it
    is empty. *)
Theorem Get_error_empty (h : Host) (s : string) (e : error) :
  result h = (s, Some e) -> s = EmptyString.
Proof.
  unfold result. rewrite Get_unfold.
  destruct (snd (interfaceTable h)); simpl.
  - now intros [= <- _].
  - destruct (fst (rangeInterfaces _ h)) as [r|] eqn:Hr.
    + intros ->. exact (rangeInterfaces_error _ _ _ _ Hr).
    + now intros [= <- _].
Qed.

Lemma Get_error_empty_witness :
  fst (result broken) = EmptyString.
Proof.
  exact (Get_error_empty broken (fst (result broken)) denied eq_refl).
Defined.

(** C2.  An interface whose up flag is unset or whose loopback flag is set
    is skipped entirely: [Get] never asks such an interface for its
    addresses, and whatever these addresses are, the result and the queries
    of [Get] are the same, so none of them is the value returned.  Stated
    for two hosts with the same interface list that agree on the address
    lists of the listed interfaces that are up and not loopback. *)
Theorem Get_skips_down_and_loopback (h h' : Host) :
  interfaceTable h = interfaceTable h' ->
  (forall v, In v (fst (interfaceTable h)) ->
             up v = true -> loopback v = false ->
             interfaceAddrTable h v = interfaceAddrTable h' v) ->
  Get h = Get h'
  /\ forall v, In (QAddrs v) (queries h) -> up v = true /\ loopback v = false.
Proof.
  intros Ht H. split.
  - apply Get_ext; [exact Ht|].
    intros v Hv He. apply eligible_flags in He. destruct He as [Hup Hlo].
    now rewrite (H v Hv Hup Hlo).
  - intros v. unfold queries. rewrite Get_unfold.
    destruct (snd (interfaceTable h)); simpl.
    + intros [[=] | []].
    + intros [[=] | Hin].
      apply rangeInterfaces_queries in Hin.
      now apply eligible_flags.
Qed.

Lemma Get_skips_down_and_loopback_witness :
  Get busy = Get busy_elsewhere
  /\ forall v, In (QAddrs v) (queries busy) ->
               up v = true /\ loopback v = false.
Proof.
  apply (Get_skips_down_and_loopback busy busy_elsewhere).
  - reflexivity.
  - intros v [<- | [<- | [<- | [<- | []]]]] Hup Hlo;
      first [discriminate Hup | discriminate Hlo | reflexivity].
Defined.

(** The text of an IP value without a 4-byte form holds no period, so it
    is no dotted-decimal literal. *)
Lemma hasDot_app (s t : string) :
  hasDot (s ++ t) = hasDot s || hasDot t.
Proof.
  induction s as [|c s IH]; simpl; [reflexivity|].
  now rewrite IH, orb_assoc.
Qed.

Lemma fields_no_dot (s : string) : hasDot s = false -> fields s = [s].
Proof.
  induction s as [|c s IH]; simpl; [reflexivity|].
  destruct (Ascii.eqb c "."); simpl; [discriminate|].
  intros H. now rewrite (IH H).
Qed.

Lemma dottedDecimal_no_dot (s : string) :
  hasDot s = false -> dottedDecimal s = None.
Proof.
  intros H. unfold dottedDecimal. now rewrite (fields_no_dot s H).
Qed.

Lemma hasDot_digit (n : N) : hasDot (net.digit n) = false.
Proof.
  unfold net.digit. generalize (N.to_nat n) as k. intros k.
  do 16 (destruct k as [|k]; [reflexivity|]).
  now destruct k.
Qed.

Lemma hasDot_appendHex (b : string) (x : N) :
  hasDot (net.appendHex b x) = hasDot b.
Proof.
  unfold net.appendHex.
  destruct (4096 <=? x), (256 <=? x), (16 <=? x);
    now rewrite ?hasDot_app, ?hasDot_digit, ?orb_false_r.
Qed.

Lemma hasDot_appendGroups (fuel : nat) (p : list byte) (z : nat * nat)
      (ret : string) (i : nat) :
  hasDot ret = false -> hasDot (net.appendGroups fuel p z ret i) = false.
Proof.
  revert ret i.
  induction fuel as [|fuel IH]; intros ret i Hret;
    cbn [net.appendGroups]; [exact Hret|].
  destruct (Nat.leb 8 i); [exact Hret|].
  destruct (Nat.eqb i (fst z)).
  - destruct (Nat.leb 8 (snd z)).
    + now rewrite hasDot_app, Hret.
    + apply IH. now rewrite hasDot_appendHex, hasDot_app, Hret.
  - apply IH. rewrite hasDot_appendHex.
    destruct (Nat.ltb 0 i); [now rewrite hasDot_app, Hret | exact Hret].
Qed.

Lemma hasDot_hexString (b : list byte) : hasDot (net.hexString b) = false.
Proof.
  induction b as [|tn b IH]; [reflexivity|].
  cbn [net.hexString]. now rewrite !hasDot_app, !hasDot_digit, IH.
Qed.

Lemma String_no_dot (ip : net.IP) :
  net.To4 ip = None -> hasDot (net.String ip) = false.
Proof.
  intros H. unfold net.String. rewrite H.
  destruct (Nat.eqb (net.len ip) 0); [reflexivity|].
  destruct (_ && _).
  - change (hasDot (String "?" (net.hexString (net.bytes ip))) = false).
    simpl. apply hasDot_hexString.
  - simpl. unfold net.string6. now apply hasDot_appendGroups.
Qed.

(** The textual form of a rejected address is either no dotted-decimal
    literal at all or one whose first octet is 127. *)
Lemma rejected_String (a : net.Addr) :
  rejected a = true ->
  dottedDecimal (net.String (addrIP a)) = None
  \/ exists b1 b2 b3,
       dottedDecimal (net.String (addrIP a)) = Some [x7f; b1; b2; b3].
Proof.
  intros H.
  destruct (net.isnil (net.To4 (addrIP a))) eqn:H4.
  - left. apply dottedDecimal_no_dot, String_no_dot.
    now destruct (net.To4 (addrIP a)).
  - right. rewrite <- (String_To4 _ H4).
    destruct (rejected_text a H) as [Hn | Hs]; [|exact Hs].
    exfalso. unfold text in Hn.
    destruct (To4_four _ H4) as (b0 & b1 & b2 & b3 & E).
    rewrite E, String_four, dottedDecimal_string4 in Hn. discriminate.
Qed.

(** C3.  An address whose IP value is loopback-classified, or has no 4-byte
    form, is skipped and the iteration goes on: [Get] does on a host what
    it does on the same host with all such addresses taken out.  And it is
    never returned: a string that [Get] returns without error is not the
    textual form [net.String] of the IP value of any such address (so it is
    never "::1", "fe80::1" or "127.0.0.1"), nor what [String] gives for its
    4-byte form. *)
Theorem Get_never_returns_rejected (h : Host) :
  Get h = Get (withoutRejected h)
  /\ forall (s : string) (a : net.Addr),
       result h = (s, None) -> rejected a = true ->
       s <> net.String (addrIP a) /\ s <> text a.
Proof.
  split.
  - apply Get_ext; [reflexivity|].
    intros v _ _. simpl. now rewrite rangeAddrs_filter.
  - intros s a. unfold result. rewrite Get_unfold.
    destruct (snd (interfaceTable h)); [discriminate|]. simpl.
    destruct (fst (rangeInterfaces _ h)) as [r|] eqn:Hr; [|discriminate].
    intros -> Hrej.
    destruct (rangeInterfaces_found _ _ _ Hr)
      as (v & a0 & _ & _ & _ & Ha0 & Heq).
    destruct (usable_text a0 Ha0) as (b0 & b1 & b2 & b3 & _ & Hb0 & E).
    pose proof (dottedDecimal_string4 b0 b1 b2 b3) as Hd.
    rewrite <- E, <- Heq in Hd.
    split; intros ->.
    + destruct (rejected_String a Hrej) as [Hn | (c1 & c2 & c3 & Hc)];
        rewrite Hd in *; congruence.
    + destruct (rejected_text a Hrej) as [Hn | (c1 & c2 & c3 & Hc)];
        rewrite Hd in *; congruence.
Qed.

Lemma Get_never_returns_rejected_witness :
  Get busy = Get (withoutRejected busy)
  /\ ("10.0.0.1"%string <> "127.0.0.2"%string
      /\ "10.0.0.1"%string <> text a_loop_bare)
  /\ ("10.0.0.1"%string <> "fe80::1"%string
      /\ "10.0.0.1"%string <> text a_fe80_1).
Proof.
  destruct (Get_never_returns_rejected busy) as [Hskip Hnever].
  split; [exact Hskip|].
  split.
  - exact (Hnever "10.0.0.1"%string a_loop_bare eq_refl eq_refl).
  - exact (Hnever "10.0.0.1"%string a_fe80_1 eq_refl eq_refl).
Defined.

(** C4.  A string that [Get] returns without error is the text of an
    address listed for some interface of the interface list that is up and
    not loopback; this address has a 4-byte form, and the string is four
    decimal octets separated by periods: it reads back, as a dotted-decimal
    literal, to these four bytes. *)
Theorem Get_success_dotted (h : Host) (s : string) :
  result h = (s, None) ->
  exists (v : net.Interface) (a : net.Addr) (b0 b1 b2 b3 : byte),
    In v (fst (interfaceTable h))
    /\ up v = true /\ loopback v = false
    /\ In a (fst (interfaceAddrTable h v))
    /\ net.To4 (addrIP a) = Some [b0; b1; b2; b3]
    /\ s = net.String (addrIP a)
    /\ s = (dec b0 ++ "." ++ dec b1 ++ "." ++ dec b2 ++ "." ++ dec b3)%string
    /\ dottedDecimal s = Some [b0; b1; b2; b3].
Proof.
  unfold result. rewrite Get_unfold.
  destruct (snd (interfaceTable h)); [discriminate|]. simpl.
  destruct (fst (rangeInterfaces _ h)) as [r|] eqn:Hr; [|discriminate].
  intros ->.
  destruct (rangeInterfaces_found _ _ _ Hr)
    as (v & a & Hv & He & Ha & Hu & ->).
  apply eligible_flags in He. destruct He as [Hup Hlo].
  destruct (usable_text a Hu) as (b0 & b1 & b2 & b3 & E4 & _ & E).
  exists v, a, b0, b1, b2, b3.
  repeat split; try assumption.
  - unfold text. apply String_To4. now rewrite E4.
  - now rewrite E, string4_dec.
  - now rewrite E, dottedDecimal_string4.
Qed.

Lemma Get_success_dotted_witness :
  exists (v : net.Interface) (a : net.Addr) (b0 b1 b2 b3 : byte),
    In v (fst (interfaceTable busy))
    /\ up v = true /\ loopback v = false
    /\ In a (fst (interfaceAddrTable busy v))
    /\ net.To4 (addrIP a) = Some [b0; b1; b2; b3]
    /\ "10.0.0.1"%string = net.String (addrIP a)
    /\ "10.0.0.1"%string
       = (dec b0 ++ "." ++ dec b1 ++ "." ++ dec b2 ++ "." ++ dec b3)%string
    /\ dottedDecimal "10.0.0.1" = Some [b0; b1; b2; b3].
Proof.
  apply (Get_success_dotted busy "10.0.0.1"). reflexivity.
Defined.

(** C7.  When an address query that [Get] makes fails (queries are made to
    up, non-loopback interfaces only), [Get] returns the empty string and
    the error of that query, and the query is the last one it made: no
    later interface is examined and no other interface is tried in its
    place. *)
Theorem Get_addrs_error (h : Host) (v : net.Interface) (l : list net.Addr)
        (e : error) (q1 q2 : list Query) :
  queries h = q1 ++ QAddrs v :: q2 ->
  interfaceAddrTable h v = (l, Some e) ->
  result h = (EmptyString, Some e)
  /\ q2 = []
  /\ up v = true /\ loopback v = false.
Proof.
  unfold queries, result. rewrite Get_unfold. intros Hq Hv.
  assert (He : snd (interfaceAddrTable h v) = Some e) by now rewrite Hv.
  destruct (snd (interfaceTable h)); simpl in *.
  - destruct q1 as [|x [|y q1]]; discriminate.
  - destruct q1 as [|x q1]; [discriminate|].
    injection Hq as _ Hq.
    destruct (rangeInterfaces_abort h _ v e q1 q2 Hq He) as [-> ->].
    repeat split; apply eligible_flags;
      apply (rangeInterfaces_queries h (fst (interfaceTable h)));
      rewrite Hq; apply in_elt.
Qed.

Lemma Get_addrs_error_witness :
  result broken = (EmptyString, Some denied)
  /\ @nil Query = []
  /\ up eth1 = true /\ loopback eth1 = false.
Proof.
  apply (Get_addrs_error broken eth1 [] denied [QInterfaces; QAddrs eth0] []).
  - reflexivity.
  - reflexivity.
Defined.

(** One pass of the inner loop over an address of either representation,
    by the IP value it carries. *)
Lemma rangeAddrs_IP (a : net.Addr) (ip : net.IP) (rest : list net.Addr) :
  (exists m, a = net.IPNet ip m) \/ (exists z, a = net.IPAddr ip z) ->
  rangeAddrs (a :: rest)
  = if net.isnil ip || net.IsLoopback ip || net.isnil (net.To4 ip)
    then rangeAddrs rest
    else Some (net.String ip, None).
Proof.
  intros Ha.
  assert (E : addrIP a = ip) by (destruct Ha as [[m ->] | [z ->]]; reflexivity).
  rewrite rangeAddrs_cons. unfold usable, text. rewrite E.
  destruct (net.isnil ip); [reflexivity|].
  destruct (net.IsLoopback ip); [reflexivity|].
  destruct (net.isnil (net.To4 ip)) eqn:H4; [reflexivity|].
  simpl. now rewrite (String_To4 ip H4).
Qed.

(** C8.  [Get] takes the IP value out of an address in the same way for
    the two representations, [*net.IPNet] and [*net.IPAddr], and filters
    that value:
    - in the address loop, an address of either representation that
      carries the IP value [ip] is skipped when [ip] is nil, is loopback or
      has no 4-byte form, and otherwise ends the loop with the textual form
      of [ip] and a nil error, whatever the mask or the zone;
    - when the first usable address of the first eligible interface that
      lists one is of either representation and carries [ip], [Get]
      returns the textual form of [ip] with a nil error;
    - two hosts with the same interface list whose address lists differ
      only in the representation of the same IP values (and in the mask or
      zone that comes with it) give the same result and the same
      queries. *)
Theorem Get_uniform_representation :
  (forall (ip : net.IP) (m : list byte) (z : string) (rest : list net.Addr),
      rangeAddrs (net.IPNet ip m :: rest)
      = rangeAddrs (net.IPAddr ip z :: rest)
      /\ rangeAddrs (net.IPAddr ip z :: rest)
         = if net.isnil ip || net.IsLoopback ip || net.isnil (net.To4 ip)
           then rangeAddrs rest
           else Some (net.String ip, None))
  /\ (forall (h : Host) (pre post : list net.Interface) (v : net.Interface)
             (apre apost : list net.Addr) (a : net.Addr) (ip : net.IP),
         interfaceTable h = (pre ++ v :: post, None) ->
         Forall (passedBy h) pre ->
         up v = true -> loopback v = false ->
         interfaceAddrTable h v = (apre ++ a :: apost, None) ->
         Forall (fun x => usable x = false) apre ->
         (exists m, a = net.IPNet ip m) \/ (exists z, a = net.IPAddr ip z) ->
         net.isnil ip = false -> net.IsLoopback ip = false ->
         net.isnil (net.To4 ip) = false ->
         Get h = (net.String ip, None,
                  QInterfaces :: addrQueries pre ++ [QAddrs v]))
  /\ (forall h h' : Host,
         interfaceTable h = interfaceTable h' ->
         (forall v, In v (fst (interfaceTable h)) ->
                    snd (interfaceAddrTable h v)
                    = snd (interfaceAddrTable h' v)
                    /\ Forall2 sameIP (fst (interfaceAddrTable h v))
                                      (fst (interfaceAddrTable h' v))) ->
         Get h = Get h').
Proof.
  split; [|split].
  - intros ip m z rest.
    rewrite (rangeAddrs_IP (net.IPNet ip m) ip rest)
      by (left; now exists m).
    rewrite (rangeAddrs_IP (net.IPAddr ip z) ip rest)
      by (right; now exists z).
    now split.
  - intros h pre post v apre apost a ip Ht Hpre Hup Hlo Hv Hapre Ha Hn Hl H4.
    rewrite Get_unfold, Ht. simpl snd. simpl fst.
    rewrite (rangeInterfaces_passedBy h pre (v :: post) Hpre).
    rewrite rangeInterfaces_cons.
    assert (He : eligible v = true) by now apply eligible_flags.
    rewrite He, Hv. simpl snd. simpl fst.
    assert (E : addrIP a = ip)
      by (destruct Ha as [[m ->] | [z ->]]; reflexivity).
    assert (Hu : usable a = true)
      by (unfold usable; now rewrite E, Hn, Hl, H4).
    rewrite (rangeAddrs_first apre apost a Hapre Hu).
    unfold text. now rewrite E, (String_To4 ip H4).
  - intros h h' Ht H. apply Get_ext; [exact Ht|].
    intros v Hv _. destruct (H v Hv) as [He Hl].
    split; [exact He|].
    apply rangeAddrs_same_IP.
    induction Hl as [|a a' l l' Ha _ IH]; constructor;
      [now apply sameIP_addrIP | exact IH].
Qed.

Lemma Get_uniform_representation_witness :
  (rangeAddrs [net.IPNet (Some [x0a; x00; x00; x01]) mask24; a_10_0_0_2]
   = rangeAddrs [net.IPAddr (Some [x0a; x00; x00; x01]) "eth0"; a_10_0_0_2]
   /\ rangeAddrs [net.IPAddr (Some [x0a; x00; x00; x01]) "eth0"; a_10_0_0_2]
      = Some ("10.0.0.1"%string, None))
  /\ Get busy = ("10.0.0.1"%string, None, [QInterfaces; QAddrs eth0])
  /\ Get busy_other_form
     = ("10.0.0.1"%string, None, [QInterfaces; QAddrs eth0])
  /\ Get busy = Get busy_other_form.
Proof.
  destruct Get_uniform_representation as (Hloop & Hfirst & Hsame).
  split; [|split; [|split]].
  - exact (Hloop (Some [x0a; x00; x00; x01]) mask24 "eth0"%string
                 [a_10_0_0_2]).
  - apply (Hfirst busy [lo; wlan0] [eth1] eth0
                  [a_fe80_1; a_loop_bare; a_unix] [a_10_0_0_2]
                  a_10_0_0_1 (Some [x0a; x00; x00; x01])).
    + reflexivity.
    + apply Forall_cons; [right; left; reflexivity|].
      apply Forall_cons; [left; reflexivity|].
      apply Forall_nil.
    + reflexivity.
    + reflexivity.
    + reflexivity.
    + repeat (apply Forall_cons; [reflexivity|]). apply Forall_nil.
    + left. now exists mask24.
    + reflexivity.
    + reflexivity.
    + reflexivity.
  - apply (Hfirst busy_other_form [lo; wlan0] [eth1] eth0
                  [net.IPAddr (addrIP a_fe80_1) "eth0";
                   net.IPNet (addrIP a_loop_bare) mask24; a_unix]
                  [net.IPNet (addrIP a_10_0_0_2) mask24]
                  (net.IPAddr (addrIP a_10_0_0_1) "")
                  (Some [x0a; x00; x00; x01])).
    + reflexivity.
    + apply Forall_cons; [right; left; reflexivity|].
      apply Forall_cons; [left; reflexivity|].
      apply Forall_nil.
    + reflexivity.
    + reflexivity.
    + reflexivity.
    + repeat (apply Forall_cons; [reflexivity|]). apply Forall_nil.
    + right. now exists EmptyString.
    + reflexivity.
    + reflexivity.
    + reflexivity.
  - apply (Hsame busy busy_other_form).
    + reflexivity.
    + intros v [<- | [<- | [<- | [<- | []]]]]; (split; [reflexivity|]).
      * apply Forall2_cons; [apply sameIP_net_addr | apply Forall2_nil].
      * apply Forall2_cons; [apply sameIP_refl | apply Forall2_nil].
      * apply Forall2_cons; [apply sameIP_net_addr|].
        apply Forall2_cons; [apply sameIP_addr_net|].
        apply Forall2_cons; [apply sameIP_refl|].
        apply Forall2_cons; [apply sameIP_net_addr|].
        apply Forall2_cons; [apply sameIP_addr_net|].
        apply Forall2_nil.
      * apply Forall2_cons; [apply sameIP_refl | apply Forall2_nil].
Defined.

(** C9.  [Get] is determined by the outcomes of the enumerations: on two
    hosts that answer [net.Interfaces()] alike and answer alike the address
    query of every listed interface, [Get] returns the same string and
    error (and makes the same queries). *)
Theorem Get_deterministic (h h' : Host) :
  interfaceTable h = interfaceTable h' ->
  (forall v, In v (fst (interfaceTable h)) ->
             interfaceAddrTable h v = interfaceAddrTable h' v) ->
  Get h = Get h'.
Proof.
  intros Ht H. apply Get_ext; [exact Ht|].
  intros v Hv _. now rewrite (H v Hv).
Qed.

Lemma Get_deterministic_witness :
  Get broken
  = Get (host [lo; eth0; eth1; eth2]
              [(2, ([a_fe80_1], None));
               (3, ([], Some denied));
               (5, ([a_10_0_0_5], None));
               (7, ([a_192_168_1_2], None))]).
Proof.
  apply Get_deterministic.
  - reflexivity.
  - intros v [<- | [<- | [<- | [<- | []]]]]; reflexivity.
Defined.

(** ** Further properties of [Get] and of its loops *)

(** *** How the loops compose *)

Lemma rangeAddrs_app (l1 l2 : list net.Addr) :
  rangeAddrs (l1 ++ l2)
  = match rangeAddrs l1 with
    | Some r => Some r
    | None => rangeAddrs l2
    end.
Proof.
  induction l1 as [|a l1 IH]; [reflexivity|].
  simpl app. rewrite !rangeAddrs_cons.
  now destruct (usable a).
Qed.

(** X10.  The search over [l1 ++ l2] is the search over [l1] when that one
    returns (a value or an error), and otherwise the search over [l2] made
    after the queries of [l1]. *)
Theorem rangeInterfaces_app (h : Host) (l1 l2 : list net.Interface) :
  rangeInterfaces (l1 ++ l2) h
  = match fst (rangeInterfaces l1 h) with
    | Some r => (Some r, snd (rangeInterfaces l1 h))
    | None => (fst (rangeInterfaces l2 h),
               snd (rangeInterfaces l1 h) ++ snd (rangeInterfaces l2 h))
    end.
Proof.
  induction l1 as [|v l1 IH].
  - simpl app. now destruct (rangeInterfaces l2 h).
  - change ((v :: l1) ++ l2) with (v :: (l1 ++ l2)).
    rewrite (rangeInterfaces_cons h v (l1 ++ l2)).
    rewrite (rangeInterfaces_cons h v l1).
    destruct (eligible v); [|exact IH].
    destruct (snd (interfaceAddrTable h v)); [reflexivity|].
    destruct (rangeAddrs _); [reflexivity|].
    rewrite IH. simpl fst. simpl snd.
    now destruct (fst (rangeInterfaces l1 h)).
Qed.

(** *** What a result tells about the host *)

Lemma not_eligible_flags (v : net.Interface) :
  eligible v = false -> up v = false \/ loopback v = true.
Proof.
  unfold eligible. destruct (up v), (loopback v); auto.
Qed.

Lemma rangeAddrs_some_split (l : list net.Addr) (r : string * option error) :
  rangeAddrs l = Some r ->
  exists apre a apost,
    l = apre ++ a :: apost
    /\ Forall (fun x => usable x = false) apre
    /\ usable a = true /\ r = (text a, None).
Proof.
  induction l as [|x l IH]; [discriminate|].
  rewrite rangeAddrs_cons.
  destruct (usable x) eqn:Hx.
  - intros [= <-]. exists [], x, l. repeat split; auto.
  - intros H. destruct (IH H) as (apre & a & apost & -> & Hpre & Ha & Hr).
    exists (x :: apre), a, apost. repeat split; auto.
Qed.

Section Outcome.

Variable h : Host.

Lemma rangeInterfaces_none (l : list net.Interface) :
  fst (rangeInterfaces l h) = None ->
  Forall (passedBy h) l /\ snd (rangeInterfaces l h) = addrQueries l.
Proof.
  unfold addrQueries.
  induction l as [|v l IH]; [now split|].
  rewrite rangeInterfaces_cons. simpl filter.
  destruct (eligible v) eqn:He.
  - destruct (snd (interfaceAddrTable h v)) eqn:Herr; [discriminate|].
    destruct (rangeAddrs _) eqn:Hr; [discriminate|].
    simpl. intros H. destruct (IH H) as [Hl Hq]. split.
    + constructor; [|exact Hl].
      right; right. split; [exact Herr | now apply rangeAddrs_none_inv].
    + now rewrite Hq.
  - intros H. destruct (IH H) as [Hl Hq]. split; [|exact Hq].
    constructor; [|exact Hl].
    destruct (not_eligible_flags v He); [now left | now right; left].
Qed.

Lemma rangeInterfaces_found_split (l : list net.Interface) (s : string) :
  fst (rangeInterfaces l h) = Some (s, None) ->
  exists pre v post apre a apost,
    l = pre ++ v :: post
    /\ Forall (passedBy h) pre
    /\ eligible v = true
    /\ interfaceAddrTable h v = (apre ++ a :: apost, None)
    /\ Forall (fun x => usable x = false) apre
    /\ usable a = true
    /\ s = text a
    /\ snd (rangeInterfaces l h) = addrQueries pre ++ [QAddrs v].
Proof.
  unfold addrQueries.
  induction l as [|u l IH]; [discriminate|].
  rewrite rangeInterfaces_cons.
  destruct (eligible u) eqn:He.
  - destruct (interfaceAddrTable h u) as [addrs err] eqn:Hu. simpl fst. simpl snd.
    destruct err; [discriminate|].
    destruct (rangeAddrs addrs) as [r|] eqn:Hr.
    + simpl. intros [= ->].
      destruct (rangeAddrs_some_split _ _ Hr)
        as (apre & a & apost & -> & Hpre & Ha & [= ->]).
      exists [], u, l, apre, a, apost. repeat split; auto.
    + simpl. intros H.
      destruct (IH H)
        as (pre & v & post & apre & a & apost & -> & Hp & Hv & Ht & Hap & Ha & Hs & Hq).
      exists (u :: pre), v, post, apre, a, apost.
      repeat split; auto.
      * constructor; [|exact Hp].
        right; right. rewrite Hu. split; [reflexivity|].
        now apply rangeAddrs_none_inv.
      * simpl filter. rewrite He. simpl. now rewrite Hq.
  - intros H.
    destruct (IH H)
      as (pre & v & post & apre & a & apost & -> & Hp & Hv & Ht & Hap & Ha & Hs & Hq).
    exists (u :: pre), v, post, apre, a, apost.
    repeat split; auto.
    + constructor; [|exact Hp].
      destruct (not_eligible_flags u He); [now left | now right; left].
    + simpl filter. now rewrite He.
Qed.

Lemma rangeInterfaces_failed (l : list net.Interface) (s : string) (e : error) :
  fst (rangeInterfaces l h) = Some (s, Some e) ->
  exists v, In v l /\ eligible v = true
            /\ snd (interfaceAddrTable h v) = Some e.
Proof.
  induction l as [|u l IH]; [discriminate|].
  rewrite rangeInterfaces_cons.
  assert (Hl : fst (rangeInterfaces l h) = Some (s, Some e) ->
               exists v, In v (u :: l) /\ eligible v = true
                         /\ snd (interfaceAddrTable h v) = Some e).
  { intros H. destruct (IH H) as (v & Hv & Hrest).
    exists v. split; [now right | exact Hrest]. }
  destruct (eligible u) eqn:He; [|exact Hl].
  destruct (snd (interfaceAddrTable h u)) as [eu|] eqn:Heu.
  - simpl. intros [= _ ->]. exists u. split; [now left | auto].
  - destruct (rangeAddrs _) as [r|] eqn:Hr; [|exact Hl].
    simpl. intros [= ->].
    destruct (rangeAddrs_some _ _ Hr) as (a & _ & _ & [=]).
Qed.

Lemma rangeInterfaces_queries_prefix (l : list net.Interface) :
  exists rest, addrQueries l = snd (rangeInterfaces l h) ++ rest.
Proof.
  unfold addrQueries.
  induction l as [|u l IH]; [now exists []|].
  destruct IH as [rest IH].
  rewrite rangeInterfaces_cons. simpl filter.
  destruct (eligible u); [|now exists rest].
  simpl map.
  destruct (snd (interfaceAddrTable h u)); [now eexists|].
  destruct (rangeAddrs _); [now eexists|].
  exists rest. simpl. now rewrite IH.
Qed.

End Outcome.

(** X1.  A string returned without error comes from the first usable address:
    the interface list is [pre ++ v :: post] with every interface of [pre]
    passed by and [v] up and not loopback, the address list of [v] was
    obtained without error and is [apre ++ a :: apost] with no usable
    address in [apre] and [a] usable, the string is the text of [a], and
    the queries made are those of [pre] and of [v]. *)
Theorem Get_success_first (h : Host) (s : string) :
  result h = (s, None) ->
  exists (pre : list net.Interface) (v : net.Interface)
         (post : list net.Interface)
         (apre : list net.Addr) (a : net.Addr) (apost : list net.Addr),
    interfaceTable h = (pre ++ v :: post, None)
    /\ Forall (passedBy h) pre
    /\ up v = true /\ loopback v = false
    /\ interfaceAddrTable h v = (apre ++ a :: apost, None)
    /\ Forall (fun x => usable x = false) apre
    /\ usable a = true
    /\ s = text a
    /\ queries h = QInterfaces :: addrQueries pre ++ [QAddrs v].
Proof.
  unfold result, queries. rewrite Get_unfold.
  destruct (interfaceTable h) as [l err]. simpl fst. simpl snd.
  destruct err; [discriminate|]. simpl.
  destruct (fst (rangeInterfaces l h)) as [r|] eqn:Hr; [|discriminate].
  intros ->.
  destruct (rangeInterfaces_found_split h l s Hr)
    as (pre & v & post & apre & a & apost
        & -> & Hp & Hv & Ht & Hap & Ha & Hs & Hq).
  apply eligible_flags in Hv. destruct Hv as [Hup Hlo].
  exists pre, v, post, apre, a, apost.
  rewrite Hq. repeat split; assumption.
Qed.

Lemma Get_success_first_witness :
  exists (pre : list net.Interface) (v : net.Interface)
         (post : list net.Interface)
         (apre : list net.Addr) (a : net.Addr) (apost : list net.Addr),
    interfaceTable busy = (pre ++ v :: post, None)
    /\ Forall (passedBy busy) pre
    /\ up v = true /\ loopback v = false
    /\ interfaceAddrTable busy v = (apre ++ a :: apost, None)
    /\ Forall (fun x => usable x = false) apre
    /\ usable a = true
    /\ "10.0.0.1"%string = text a
    /\ queries busy = QInterfaces :: addrQueries pre ++ [QAddrs v].
Proof.
  apply (Get_success_first busy "10.0.0.1"). reflexivity.
Defined.

(** X2.  When neither the interface list nor any address list of a listed up,
    non-loopback interface comes with an error, [Get] returns a string
    without error exactly when some listed up, non-loopback interface lists
    a usable address, and its only other result is the empty string with
    the error "not connected to the network". *)
Theorem Get_succeeds_iff (h : Host) (l : list net.Interface) :
  interfaceTable h = (l, None) ->
  (forall v, In v l -> up v = true -> loopback v = false ->
             snd (interfaceAddrTable h v) = None) ->
  ((exists s, result h = (s, None))
   <-> exists v a, In v l /\ up v = true /\ loopback v = false
                   /\ In a (fst (interfaceAddrTable h v))
                   /\ usable a = true)
  /\ ((exists s, result h = (s, None))
      \/ result h
         = (EmptyString, Some (errorString "not connected to the network"))).
Proof.
  intros Ht Hok. unfold result. rewrite Get_unfold, Ht. simpl fst. simpl snd.
  destruct (fst (rangeInterfaces l h)) as [[s [e|]]|] eqn:Hr.
  - destruct (rangeInterfaces_failed h l s e Hr) as (v & Hv & He & Herr).
    apply eligible_flags in He. destruct He as [Hup Hlo].
    rewrite (Hok v Hv Hup Hlo) in Herr. discriminate.
  - split; [|left; now exists s].
    split; [intros _ | intros _; now exists s].
    destruct (rangeInterfaces_found h l s Hr) as (v & a & Hv & He & Ha & Hu & _).
    apply eligible_flags in He. destruct He as [Hup Hlo].
    now exists v, a.
  - split; [|right; reflexivity].
    split; [intros [s [=]]|].
    intros (v & a & Hv & Hup & Hlo & Ha & Hu).
    destruct (rangeInterfaces_none h l Hr) as [Hall _].
    rewrite Forall_forall in Hall.
    destruct (Hall v Hv) as [H | [H | [_ H]]]; try congruence.
    rewrite Forall_forall in H. specialize (H a Ha). congruence.
Qed.

Lemma Get_succeeds_iff_witness :
  ((exists s, result busy = (s, None))
   <-> exists v a, In v [lo; wlan0; eth0; eth1]
                   /\ up v = true /\ loopback v = false
                   /\ In a (fst (interfaceAddrTable busy v))
                   /\ usable a = true)
  /\ ((exists s, result busy = (s, None))
      \/ result busy
         = (EmptyString, Some (errorString "not connected to the network"))).
Proof.
  apply (Get_succeeds_iff busy [lo; wlan0; eth0; eth1]).
  - reflexivity.
  - intros v [<- | [<- | [<- | [<- | []]]]] _ _; reflexivity.
Defined.

(** X3.  An error that [Get] returns is the error of [net.Interfaces()], or the
    error of the address query of a listed up, non-loopback interface, or,
    when every listed interface was passed by, the error made from "not
    connected to the network": [Get] makes no other error of its own. *)
Theorem Get_error_origin (h : Host) (s : string) (e : error) :
  result h = (s, Some e) ->
  snd (interfaceTable h) = Some e
  \/ (snd (interfaceTable h) = None
      /\ exists v, In v (fst (interfaceTable h))
                   /\ up v = true /\ loopback v = false
                   /\ snd (interfaceAddrTable h v) = Some e)
  \/ (snd (interfaceTable h) = None
      /\ Forall (passedBy h) (fst (interfaceTable h))
      /\ e = fmt.Errorf "not connected to the network").
Proof.
  unfold result. rewrite Get_unfold.
  destruct (snd (interfaceTable h)) as [e0|]; simpl.
  - intros [= _ ->]. now left.
  - destruct (fst (rangeInterfaces _ h)) as [r|] eqn:Hr.
    + intros ->. right; left. split; [reflexivity|].
      destruct (rangeInterfaces_failed h _ s e Hr) as (v & Hv & He & Herr).
      apply eligible_flags in He. destruct He as [Hup Hlo].
      now exists v.
    + intros [= _ <-]. right; right. split; [reflexivity|].
      destruct (rangeInterfaces_none h _ Hr) as [Hall _].
      now split.
Qed.

Lemma Get_error_origin_witness :
  snd (interfaceTable broken) = Some denied
  \/ (snd (interfaceTable broken) = None
      /\ exists v, In v (fst (interfaceTable broken))
                   /\ up v = true /\ loopback v = false
                   /\ snd (interfaceAddrTable broken v) = Some denied)
  \/ (snd (interfaceTable broken) = None
      /\ Forall (passedBy broken) (fst (interfaceTable broken))
      /\ denied = fmt.Errorf "not connected to the network").
Proof.
  apply (Get_error_origin broken EmptyString denied). reflexivity.
Defined.

(** X4.  The queries of [Get] are the interface list, once and first, and then
    the addresses of the listed up, non-loopback interfaces in the order of
    the list, from the first one on and without a gap or a repetition: a
    prefix of these.  So [Get] makes at most one query more than there are
    interfaces. *)
Theorem Get_queries_prefix (h : Host) :
  exists qs rest,
    queries h = QInterfaces :: qs
    /\ addrQueries (fst (interfaceTable h)) = qs ++ rest
    /\ (List.length (queries h)
        <= S (List.length (fst (interfaceTable h))))%nat.
Proof.
  unfold queries. rewrite Get_unfold.
  assert (Hlen : forall qs rest,
             addrQueries (fst (interfaceTable h)) = qs ++ rest ->
             (List.length qs <= List.length (fst (interfaceTable h)))%nat).
  { intros qs rest E.
    pose proof (filter_length_le eligible (fst (interfaceTable h))) as Hf.
    apply (f_equal (@List.length Query)) in E.
    unfold addrQueries in E. rewrite length_map, length_app in E. lia. }
  destruct (snd (interfaceTable h)).
  - exists [], (addrQueries (fst (interfaceTable h))).
    repeat split. simpl. lia.
  - destruct (rangeInterfaces_queries_prefix h (fst (interfaceTable h)))
      as [rest E].
    exists (snd (rangeInterfaces (fst (interfaceTable h)) h)), rest.
    repeat split; [exact E|].
    simpl. apply le_n_S. exact (Hlen _ _ E).
Qed.

(** *** What [Get] reads of an interface and of an address *)

Lemma rangeInterfaces_flags (h h' : Host) (l l' : list net.Interface) :
  Forall2 (fun v v' => up v = up v' /\ loopback v = loopback v'
                       /\ interfaceAddrTable h v = interfaceAddrTable h' v')
          l l' ->
  fst (rangeInterfaces l h) = fst (rangeInterfaces l' h')
  /\ List.length (snd (rangeInterfaces l h))
     = List.length (snd (rangeInterfaces l' h')).
Proof.
  induction 1 as [|v v' l l' (Hup & Hlo & Ht) _ IH]; [now split|].
  rewrite !rangeInterfaces_cons.
  unfold eligible. rewrite <- Hup, <- Hlo, <- Ht.
  destruct (up v && negb (loopback v)); [|exact IH].
  destruct (snd (interfaceAddrTable h v)); [now split|].
  destruct (rangeAddrs _); [now split|].
  destruct IH as [IH1 IH2]. simpl. now rewrite IH1, IH2.
Qed.

(** X5.  Of an interface, [Get] reads the up bit and the loopback bit of the
    flags and asks for the addresses, and nothing else: two hosts whose
    interface lists agree, position by position, on these two bits and on
    the answer to the address query, and whose interface enumerations end
    with the same error, give the same result with as many queries,
    whatever the names, indexes, MTUs, hardware addresses and other flags
    are. *)
Theorem Get_reads_two_flags (h h' : Host) :
  snd (interfaceTable h) = snd (interfaceTable h') ->
  Forall2 (fun v v' => up v = up v' /\ loopback v = loopback v'
                       /\ interfaceAddrTable h v = interfaceAddrTable h' v')
          (fst (interfaceTable h)) (fst (interfaceTable h')) ->
  result h = result h'
  /\ List.length (queries h) = List.length (queries h').
Proof.
  intros He Hl. unfold result, queries. rewrite !Get_unfold, <- He.
  destruct (rangeInterfaces_flags h h' _ _ Hl) as [H1 H2].
  destruct (snd (interfaceTable h)); [now split|].
  simpl. now rewrite H1, H2.
Qed.

Lemma Get_reads_two_flags_witness :
  result busy = result busy_renamed
  /\ List.length (queries busy) = List.length (queries busy_renamed).
Proof.
  apply (Get_reads_two_flags busy busy_renamed).
  - reflexivity.
  - repeat (apply Forall2_cons; [repeat split|]). apply Forall2_nil.
Defined.

(** The filters of the inner loop, by the 4-byte form alone. *)
Lemma usable_To4 (a : net.Addr) :
  usable a
  = match net.To4 (addrIP a) with
    | Some p => negb (Byte.eqb (net.at_ p 0) x7f)
    | None => false
    end.
Proof.
  unfold usable, net.IsLoopback.
  destruct (net.To4 (addrIP a)) as [p|] eqn:E.
  - destruct (addrIP a); [|discriminate]. simpl.
    now rewrite andb_true_r.
  - simpl. now rewrite andb_false_r.
Qed.

Lemma rangeAddrs_same_To4 (l l' : list net.Addr) :
  Forall2 (fun a a' => net.To4 (addrIP a) = net.To4 (addrIP a')) l l' ->
  rangeAddrs l = rangeAddrs l'.
Proof.
  induction 1 as [|a a' l l' Ha _ IH]; [reflexivity|].
  rewrite !rangeAddrs_cons, !usable_To4. unfold text.
  now rewrite Ha, IH.
Qed.

(** X6.  Of an address, [Get] reads the 4-byte form of its IP value and nothing
    else: two hosts with the same interface list whose address lists agree,
    position by position, on that form (nil when there is none) give the
    same result and queries.  A 4-byte IP and its IPv4-mapped 16-byte form
    are such a pair, and so are a nil IP and an address of another kind. *)
Theorem Get_reads_To4 (h h' : Host) :
  interfaceTable h = interfaceTable h' ->
  (forall v, In v (fst (interfaceTable h)) ->
             snd (interfaceAddrTable h v) = snd (interfaceAddrTable h' v)
             /\ Forall2 (fun a a' => net.To4 (addrIP a) = net.To4 (addrIP a'))
                        (fst (interfaceAddrTable h v))
                        (fst (interfaceAddrTable h' v))) ->
  Get h = Get h'.
Proof.
  intros Ht H. apply Get_ext; [exact Ht|].
  intros v Hv _. destruct (H v Hv) as [He Hl].
  split; [exact He | now apply rangeAddrs_same_To4].
Qed.

Lemma Get_reads_To4_witness : Get busy = Get busy_mapped.
Proof.
  apply (Get_reads_To4 busy busy_mapped).
  - reflexivity.
  - intros v [<- | [<- | [<- | [<- | []]]]]; (split; [reflexivity|]);
      repeat (apply Forall2_cons; [reflexivity|]); apply Forall2_nil.
Defined.

(** *** The inner loop, by the bytes of the IP value *)

Lemma To4_mapped (b0 b1 b2 b3 : byte) :
  net.To4 (mapped [b0; b1; b2; b3]) = Some [b0; b1; b2; b3].
Proof. reflexivity. Qed.

(** X7.  An address whose IP value is four bytes, or the sixteen bytes of the
    IPv4-mapped form of four bytes, is skipped when the first of the four
    bytes is 127 (the whole of 127.0.0.0/8, not 127.0.0.1 alone) and is
    returned otherwise, as the four bytes in decimal joined by periods,
    with a nil error. *)
Theorem rangeAddrs_four_bytes (a : net.Addr) (rest : list net.Addr)
        (b0 b1 b2 b3 : byte) :
  addrIP a = Some [b0; b1; b2; b3] \/ addrIP a = mapped [b0; b1; b2; b3] ->
  rangeAddrs (a :: rest)
  = if Byte.eqb b0 x7f then rangeAddrs rest
    else Some ((dec b0 ++ "." ++ dec b1 ++ "." ++ dec b2 ++ "." ++ dec b3)
                 %string, None).
Proof.
  intros H.
  assert (E : net.To4 (addrIP a) = Some [b0; b1; b2; b3]).
  { destruct H as [-> | ->]; [reflexivity | apply To4_mapped]. }
  rewrite rangeAddrs_cons, usable_To4. unfold text. rewrite E.
  unfold net.at_; simpl nth.
  destruct (Byte.eqb b0 x7f); simpl; [reflexivity|].
  now rewrite String_four, string4_dec.
Qed.

Lemma rangeAddrs_four_bytes_witness :
  rangeAddrs [net.IPNet (mapped [x0a; x00; x00; x01]) mask24; a_10_0_0_2]
  = Some ("10.0.0.1"%string, None).
Proof.
  exact (rangeAddrs_four_bytes
           (net.IPNet (mapped [x0a; x00; x00; x01]) mask24) [a_10_0_0_2]
           x0a x00 x00 x01 (or_intror eq_refl)).
Defined.

Lemma mapped_prefix (p : list byte) :
  List.length p = 16%nat ->
  net.isZeros (net.slice p 0 10) = true ->
  Byte.eqb (net.at_ p 10) xff = true ->
  Byte.eqb (net.at_ p 11) xff = true ->
  firstn 12 p = net.v4InV6Prefix.
Proof.
  intros Hlen Hz H10 H11.
  do 12 (destruct p as [|? p]; [discriminate Hlen|]).
  unfold net.at_ in H10, H11. simpl in H10, H11.
  apply Byte.byte_dec_bl in H10, H11. subst.
  unfold net.isZeros, net.slice in Hz. simpl in Hz.
  repeat (apply andb_true_iff in Hz; destruct Hz as [?H Hz]).
  repeat match goal with
         | H : Byte.eqb _ x00 = true |- _ =>
             apply Byte.byte_dec_bl in H; subst
         end.
  reflexivity.
Qed.

(** X8.  An address whose IP value is neither four bytes long nor sixteen bytes
    long with the IPv4-mapped prefix (ten zero bytes, then two bytes 0xff)
    is skipped: a nil or empty IP, an IP of any other length, an IPv6
    address proper, an address that is neither [*net.IPNet] nor
    [*net.IPAddr]. *)
Theorem rangeAddrs_no_four_bytes (a : net.Addr) (rest : list net.Addr) :
  List.length (net.bytes (addrIP a)) <> 4%nat ->
  ~ (List.length (net.bytes (addrIP a)) = 16%nat
     /\ firstn 12 (net.bytes (addrIP a)) = net.v4InV6Prefix) ->
  rangeAddrs (a :: rest) = rangeAddrs rest.
Proof.
  intros H4 H16.
  assert (E : net.To4 (addrIP a) = None).
  { unfold net.To4, net.len.
    destruct (Nat.eqb_spec (List.length (net.bytes (addrIP a))) net.IPv4len)
      as [E4 | _]; [contradiction|].
    destruct (_ && _) eqn:C; [|reflexivity].
    exfalso. apply H16.
    apply andb_true_iff in C. destruct C as [C C11].
    apply andb_true_iff in C. destruct C as [C C10].
    apply andb_true_iff in C. destruct C as [Clen Cz].
    apply Nat.eqb_eq in Clen.
    split; [exact Clen | now apply mapped_prefix]. }
  now rewrite rangeAddrs_cons, usable_To4, E.
Qed.

Lemma rangeAddrs_no_four_bytes_witness :
  rangeAddrs [a_fe80_1; a_10_0_0_2] = rangeAddrs [a_10_0_0_2]
  /\ rangeAddrs [a_unix; a_10_0_0_2] = rangeAddrs [a_10_0_0_2]
  /\ rangeAddrs [net.IPNet (Some [x0a; x00; x00; x01; x02]) mask24;
                 a_10_0_0_2]
     = rangeAddrs [a_10_0_0_2].
Proof.
  split; [|split];
    apply rangeAddrs_no_four_bytes;
    first [ discriminate | intros [_ E]; discriminate E ].
Defined.

(** *** The length of the returned string *)

Lemma string_length_app (s t : string) :
  String.length (s ++ t) = (String.length s + String.length t)%nat.
Proof.
  induction s as [|c s IH]; simpl; [reflexivity | now rewrite IH].
Qed.

Lemma dec_length (x : byte) :
  (1 <= String.length (dec x) <= 3)%nat.
Proof.
  assert (H : Nat.leb 1 (String.length (dec x))
              && Nat.leb (String.length (dec x)) 3 = true)
    by (destruct x; reflexivity).
  apply andb_true_iff in H. destruct H as [H1 H3].
  apply Nat.leb_le in H1, H3. now split.
Qed.

(** X9.  A string returned without error has at least 7 and at most 15
    characters; in particular it is not empty, so that the string is empty
    exactly when the error is not nil. *)
Theorem Get_success_length (h : Host) (s : string) :
  result h = (s, None) ->
  (7 <= String.length s <= 15)%nat.
Proof.
  unfold result. rewrite Get_unfold.
  destruct (snd (interfaceTable h)); [discriminate|]. simpl.
  destruct (fst (rangeInterfaces _ h)) as [r|] eqn:Hr; [|discriminate].
  intros ->.
  destruct (rangeInterfaces_found h _ _ Hr) as (v & a & _ & _ & _ & Hu & ->).
  destruct (usable_text a Hu) as (b0 & b1 & b2 & b3 & _ & _ & ->).
  rewrite string4_dec, !string_length_app. simpl String.length.
  pose proof (dec_length b0). pose proof (dec_length b1).
  pose proof (dec_length b2). pose proof (dec_length b3).
  lia.
Qed.

Lemma Get_success_length_witness :
  (7 <= String.length "10.0.0.1" <= 15)%nat.
Proof.
  apply (Get_success_length busy "10.0.0.1"). reflexivity.
Defined.
